(** * The [hello] and [gallery] Django apps

    A shallow embedding of [myproject/hello/models.py],
    [myproject/hello/urls.py], [myproject/gallery/urls.py] and
    [myproject/gallery/views.py], together with the small part of Django
    those files rely on ([render], [redirect], [path], [ListView],
    [ModelForm], model fields).

    Python dictionaries (template contexts, [request.POST],
    [request.FILES], database tables keyed by primary key) are finite
    maps; a view is a function from a request and a store to a response
    and a store, with Python exceptions made explicit. *)

From stdpp Require Import base option list strings gmap fin_maps.
From Stdlib Require Import Ascii.

(** ** django.http: requests *)

Record UploadedFile := {
  file_name : string;
  file_content_type : string;
  file_bytes : string
}.

Record HttpRequest := {
  method : string;
  POST : gmap string string;
  FILES : gmap string UploadedFile
}.

(** ** django.db.models: field declarations *)

Module models.


Record DateTimeField := {
  verbose_name : string;
  auto_now : bool;
  auto_now_add : bool
}.

(** [DateTimeField.pre_save(model_instance, add)]: with [auto_now], or
    with [auto_now_add] on an insert, the attribute is overwritten with
    the current time; otherwise the value the caller put there is kept. *)
Definition DateTimeField_pre_save
    (f : DateTimeField) (add : bool) (now : nat) (attr : option nat)
    : option nat :=
  if auto_now f || (auto_now_add f && add) then Some now else attr.



End models.

(** ** hello/models.py *)

Module hello_models.
Import models.

Record Message := {
  message_text : string;
  date : nat
}.


(** [date = models.DateTimeField('date created', auto_now_add=True)] *)
Definition date_field : DateTimeField :=
  {| verbose_name := "date created"; auto_now := false; auto_now_add := true |}.


End hello_models.

(** ** gallery/models.py *)

Module gallery_models.

(** Modelled from the spec: [gallery/models.py] is not part of the
    sources at hand.  The data model gives [Post] an implicit identity
    (the primary key, which is the key of the table) and an image file
    reference, the name under which the file storage holds the upload. *)
Record Post := { image : string }.

(** The instance a model form starts from before any data is bound. *)
Definition Post_blank : Post := {| image := "" |}.

End gallery_models.

Export hello_models gallery_models.

(** ** The store: database tables, file storage and the clock *)

Record Store := {
  posts : gmap nat Post;
  messages : gmap nat Message;
  media : list (string * string);
  clock : nat
}.

Definition empty_store : Store :=
  {| posts := ∅; messages := ∅; media := []; clock := 0 |}.

(** ** Views as state transformers that may raise *)

Inductive Exn :=
  | ValueError
  | IntegrityError
  | NoReverseMatch.

Definition M (A : Type) : Type := Store → (Exn + A) * Store.

Definition ret {A} (a : A) : M A := λ s, (inr a, s).
Definition raise {A} (e : Exn) : M A := λ s, (inl e, s).
Definition bind {A B} (c : M A) (k : A → M B) : M B :=
  λ s, match c s with
       | (inr a, s') => k a s'
       | (inl e, s') => (inl e, s')
       end.

Notation "x ←' c ;; k" := (bind c (λ x, k))
  (at level 100, c at next level, right associativity).
Notation "c ;;' k" := (bind c (λ _, k))
  (at level 100, right associativity).

(** [Model.objects.all()]: every row of the table, each with its primary
    key, in an order the framework leaves open. *)
Definition objects_all {A} (table : gmap nat A) : list (nat * A) :=
  map_to_list table.

(** An [INSERT] with an auto-assigned primary key: one more than the
    largest key of the table, 1 for an empty table.  No row is ever
    deleted here, so this is the key an auto-increment column gives. *)
Definition next_pk {A} (table : gmap nat A) : nat :=
  S (max_list (elements (dom table))).

(** ** hello.Message: saving a new record *)

(** [Message(message_text=text, date=supplied).save()] for a new record:
    each field's [pre_save] runs with [add=True], then the row is
    inserted.  [date] has no default, so a missing value would violate
    the column's NOT NULL.  [save()] runs no validator: the text is
    stored as it is given, whatever its length. *)
Definition Message_create (text : string) (supplied : option nat) : M nat :=
  λ s,
    match models.DateTimeField_pre_save date_field true (clock s) supplied with
    | None => (inl IntegrityError, s)
    | Some d =>
        let pk := next_pk (messages s) in
        (inr pk,
         {| posts := posts s;
            messages := <[pk := {| message_text := text; date := d |}]> (messages s);
            media := media s;
            clock := clock s |})
    end.



(** ** django.http: responses *)

(** A bound or unbound form, as the template receives it. *)
Record Form := {
  is_bound : bool;
  data : gmap string string;
  files : gmap string UploadedFile
}.

(** Values a template context holds. *)
Inductive ContextValue :=
  | CtxForm (form : Form)
  | CtxPosts (object_list : list (nat * Post))
  | CtxMessages (object_list : list (nat * Message))
  | CtxBool (b : bool)
  | CtxNone.

(** The templates themselves are not modelled: a rendered page is the
    name of its template and the context it was rendered with. *)
Inductive HttpResponse :=
  | HttpResponseRendered (template_name : string) (context : gmap string ContextValue)
  | HttpResponseText (content : string)
  | HttpResponseRedirect (url : string)
  | HttpResponseAllow (allow : list string)
  | HttpResponseNotAllowed (permitted : list string)
  | HttpResponseNotFound
  | HttpResponseServerError.

Definition status_code (r : HttpResponse) : nat :=
  match r with
  | HttpResponseRendered _ _ => 200
  | HttpResponseText _ => 200
  | HttpResponseRedirect _ => 302
  | HttpResponseAllow _ => 200
  | HttpResponseNotAllowed _ => 405
  | HttpResponseNotFound => 404
  | HttpResponseServerError => 500
  end.

(** [django.shortcuts.render(request, template_name, context)] *)
Definition render (request : HttpRequest) (template_name : string)
    (context : gmap string ContextValue) : HttpResponse :=
  HttpResponseRendered template_name context.

(** ** django.urls *)

(** The callables the URL tables name. *)
Inductive ViewRef :=
  | ref_PostListView
  | ref_image_upload
  | ref_success
  | ref_IndexView
  | ref_second.

Global Instance ViewRef_eq_dec : EqDecision ViewRef.
Proof. solve_decision. Defined.

Record URLPattern := {
  route : string;
  callback : ViewRef;
  name : string
}.

Definition path (route : string) (view : ViewRef) (name : string) : URLPattern :=
  {| route := route; callback := view; name := name |}.

(** A route without converters at the end of a URLconf matches the
    remaining path when the two are the same string; the first pattern
    that matches wins. *)
Fixpoint resolve (urlpatterns : list URLPattern) (remaining : string)
    : option URLPattern :=
  match urlpatterns with
  | [] => None
  | p :: rest =>
      if bool_decide (route p = remaining) then Some p
      else resolve rest remaining
  end.

(** The resolver of a URLconf consumes the leading slash of the request
    path before it tries the patterns. *)
Definition resolve_url (urlpatterns : list URLPattern) (url : string)
    : option URLPattern :=
  match url with
  | String "/" remaining => resolve urlpatterns remaining
  | _ => None
  end.

Fixpoint find_name (urlpatterns : list URLPattern) (n : string)
    : option URLPattern :=
  match urlpatterns with
  | [] => None
  | p :: rest => if bool_decide (name p = n) then Some p else find_name rest n
  end.

(** [viewname.split(":")] *)
Fixpoint split_colon (acc : string) (s : string) : list string :=
  match s with
  | EmptyString => [String.rev acc]
  | String c rest =>
      if bool_decide (c = ":"%char) then String.rev acc :: split_colon "" rest
      else split_colon (String c acc) rest
  end.

(** An [include] of an app's URLconf under a prefix, with the app's
    [app_name] as its namespace. *)
Record Include := {
  prefix : string;
  namespace : string;
  included : list URLPattern
}.

Fixpoint find_namespace (root : list Include) (ns : string) : option Include :=
  match root with
  | [] => None
  | i :: rest =>
      if bool_decide (namespace i = ns) then Some i else find_namespace rest ns
  end.

(** [django.urls.reverse] for a name of the form [namespace:name] and
    patterns without arguments. *)
Definition reverse (root : list Include) (viewname : string) : option string :=
  match split_colon "" viewname with
  | [ns; n] =>
      i ← find_namespace root ns;
      p ← find_name (included i) n;
      Some ("/" +:+ prefix i +:+ route p)
  | _ => None
  end.

(** ** gallery/urls.py and hello/urls.py *)

Module gallery_urls.
Definition app_name : string := "gallery".
Definition urlpatterns : list URLPattern := [
  path "" ref_PostListView "index";
  path "image_upload" ref_image_upload "image_upload";
  path "success" ref_success "success"
].
End gallery_urls.

Module hello_urls.
Definition app_name : string := "hello".
Definition urlpatterns : list URLPattern := [
  path "" ref_IndexView "index";
  path "second/" ref_second "second"
].
End hello_urls.

(** ** What the project supplies around these files

    The project's root URLconf, its storage settings, [gallery/forms.py]
    and [hello/views.py] are not among the sources; everything below is
    stated for any choice of them. *)
Class Project := {
  (** where the root URLconf includes each app *)
  gallery_mount : string;
  hello_mount : string;
  (** the storage backend: the name a new file gets, from the names in
      use and the name of the upload *)
  storage_name : list string → string → string;
  (** the fields [UploadForm] declares: the errors their validation
      reports for a submission, and the image in its cleaned data *)
  field_errors : gmap string string → gmap string UploadedFile → gmap string (list string);
  cleaned_image : gmap string string → gmap string UploadedFile → UploadedFile;
  (** what the placeholder view of [hello] answers *)
  second_content : string
}.

(** Python's [str.lower] on ASCII text. *)
Definition ascii_lower (c : ascii) : ascii :=
  let n := nat_of_ascii c in
  if bool_decide (65 ≤ n ≤ 90) then ascii_of_nat (n + 32) else c.

Fixpoint lower (s : string) : string :=
  match s with
  | EmptyString => EmptyString
  | String c rest => String (ascii_lower c) (lower rest)
  end.

Section project.
Context `{Project}.

Definition ROOT_URLCONF : list Include := [
  {| prefix := hello_mount; namespace := hello_urls.app_name;
     included := hello_urls.urlpatterns |};
  {| prefix := gallery_mount; namespace := gallery_urls.app_name;
     included := gallery_urls.urlpatterns |}
].

(** [django.shortcuts.redirect(to)] with a view name: a temporary
    redirect to the reversed URL. *)
Definition redirect (to : string) : M HttpResponse :=
  match reverse ROOT_URLCONF to with
  | Some url => ret (HttpResponseRedirect url)
  | None => raise NoReverseMatch
  end.

(** *** gallery/forms.py: UploadForm, a model form for Post *)

(** Modelled from the spec: [gallery/forms.py], which declares
    [UploadForm], is not among the sources.  The spec makes it the form
    binder from submitted multipart input to a [Post]: built-in field
    validation, and a save operation that writes the record and the
    associated file to storage.  So it is a model form over [Post]; its
    field declarations are the project's [field_errors] and
    [cleaned_image], and [errors], [is_valid] and [save] below are the
    framework's, for that declaration.  This is [UploadForm(data, files)],
    a bound form. *)
Definition UploadForm (data : gmap string string)
    (files : gmap string UploadedFile) : Form :=
  {| is_bound := true; data := data; files := files |}.

(** [UploadForm()] *)
Definition UploadForm_unbound : Form :=
  {| is_bound := false; data := ∅; files := ∅ |}.

(** [form.errors]: an unbound form is not cleaned and has no errors. *)
Definition errors (form : Form) : gmap string (list string) :=
  if is_bound form then field_errors (data form) (files form) else ∅.

(** [form.is_valid()]: [self.is_bound and not self.errors] *)
Definition is_valid (form : Form) : bool :=
  is_bound form && bool_decide (errors form = ∅).

(** [form.save()] of a model form: a form with errors is refused with
    [ValueError]; otherwise the instance is saved, which first commits
    the file of the cleaned data to the storage, under the name the
    storage picks, and then inserts the row with that name as its image
    reference.  An unbound form has no errors and no cleaned data, it
    would insert the blank instance. *)
Definition save (form : Form) : M nat :=
  λ s,
    if bool_decide (errors form = ∅) then
      if is_bound form then
        let upload := cleaned_image (data form) (files form) in
        let stored := storage_name (media s).*1 (file_name upload) in
        let pk := next_pk (posts s) in
        (inr pk,
         {| posts := <[pk := {| image := stored |}]> (posts s);
            messages := messages s;
            media := media s ++ [(stored, file_bytes upload)];
            clock := clock s |})
      else
        let pk := next_pk (posts s) in
        (inr pk,
         {| posts := <[pk := Post_blank]> (posts s);
            messages := messages s;
            media := media s;
            clock := clock s |})
    else (inl ValueError, s).

(** *** django.views.generic.ListView *)

Inductive ModelRef := PostModel | MessageModel.

Record ListView := {
  model : ModelRef;
  template_name : option string;
  context_object_name : option string
}.

Definition app_label (m : ModelRef) : string :=
  match m with PostModel => "gallery" | MessageModel => "hello" end.

Definition model_name (m : ModelRef) : string :=
  match m with PostModel => "post" | MessageModel => "message" end.

(** [get_queryset]: [model._default_manager.all()], read when the
    request is served. *)
Definition get_queryset (view : ListView) (s : Store) : ContextValue :=
  match model view with
  | PostModel => CtxPosts (objects_all (posts s))
  | MessageModel => CtxMessages (objects_all (messages s))
  end.

Definition get_context_object_name (view : ListView) : string :=
  match context_object_name view with
  | Some n => n
  | None => model_name (model view) +:+ "_list"
  end.

(** [get_context_data]; the entry ["view"], the view object itself, is
    left out. *)
Definition get_context_data (view : ListView) (queryset : ContextValue)
    : gmap string ContextValue :=
  <[get_context_object_name view := queryset]>
    (<["object_list" := queryset]>
      (<["is_paginated" := CtxBool false]>
        (<["page_obj" := CtxNone]>
          (<["paginator" := CtxNone]> ∅)))).

(** The first of [get_template_names]: the declared [template_name],
    or else [<app_label>/<model_name>_list.html]. *)
Definition get_template_name (view : ListView) : string :=
  match template_name view with
  | Some t => t
  | None => app_label (model view) +:+ "/" +:+ model_name (model view) +:+ "_list.html"
  end.

Definition allowed_methods : list string := ["GET"; "HEAD"; "OPTIONS"].

(** [ListView.as_view()]: [dispatch] looks the handler up by the
    lower-cased method; a list view has [get], [head] (the same as
    [get]) and [options]. *)
Definition as_view (view : ListView) (request : HttpRequest) : M HttpResponse :=
  let m := lower (method request) in
  if bool_decide (m = "get" ∨ m = "head") then
    λ s, ret (render request (get_template_name view)
                (get_context_data view (get_queryset view s))) s
  else if bool_decide (m = "options") then ret (HttpResponseAllow allowed_methods)
  else ret (HttpResponseNotAllowed allowed_methods).

(** *** gallery/views.py *)

Definition PostListView : ListView :=
  {| model := PostModel;
     template_name := Some "gallery/index.html";
     context_object_name := Some "posts" |}.

(** The [return redirect(...)] inside the branch leaves the function
    ([inl]); the other paths bring a form to the final [render]. *)
Definition image_upload (request : HttpRequest) : M HttpResponse :=
  r ←' (if bool_decide (method request = "POST") then
          let form := UploadForm (POST request) (FILES request) in
          if is_valid form then
            _ ←' save form ;;
            response ←' redirect "gallery:success" ;;
            ret (inl response)
          else ret (inr form)
        else
          let form := UploadForm_unbound in
          ret (inr form)) ;;
  match r with
  | inl response => ret response
  | inr form => ret (render request "gallery/upload.html" {["form" := CtxForm form]})
  end.

Definition success (request : HttpRequest) : M HttpResponse :=
  ret (render request "gallery/success.html" ∅).

(** *** hello/views.py *)

(** Modelled from the spec: [hello/views.py] is not among the sources.
    [IndexView] has the shape of [PostListView], a list view over
    [Message] with no additional logic, so the framework's defaults
    give its template and context names. *)
Definition IndexView : ListView :=
  {| model := MessageModel; template_name := None; context_object_name := None |}.

(** Modelled from the spec: [second] is a placeholder handler with no
    logic; it answers with a fixed page. *)
Definition second (request : HttpRequest) : M HttpResponse :=
  ret (HttpResponseText second_content).

(** *** Serving a request *)

Definition call (view : ViewRef) : HttpRequest → M HttpResponse :=
  match view with
  | ref_PostListView => as_view PostListView
  | ref_image_upload => image_upload
  | ref_success => success
  | ref_IndexView => as_view IndexView
  | ref_second => second
  end.

(** The handler of the framework around a view: no match is a 404, an
    exception that escapes the view is a 500.  Requests are not atomic,
    what the view wrote before it raised stays written.  Middleware is
    not part of it. *)
Definition serve (urlpatterns : list URLPattern) (url : string)
    (request : HttpRequest) (s : Store) : HttpResponse * Store :=
  match resolve_url urlpatterns url with
  | None => (HttpResponseNotFound, s)
  | Some p =>
      match call (callback p) request s with
      | (inr response, s') => (response, s')
      | (inl _, s') => (HttpResponseServerError, s')
      end
  end.

(** What can happen to a store: a request to either app, a [Message]
    created on demand, time passing. *)
Inductive step : Store → Store → Prop :=
  | step_gallery url request s :
      step s (serve gallery_urls.urlpatterns url request s).2
  | step_hello url request s :
      step s (serve hello_urls.urlpatterns url request s).2
  | step_message text supplied s :
      step s (Message_create text supplied s).2
  | step_tick s :
      step s {| posts := posts s; messages := messages s;
                media := media s; clock := S (clock s) |}.

Definition reachable (s : Store) : Prop := rtc step empty_store s.


(** A stored [Post] has passed validation when some submission that
    the upload form accepts accounts for it: its image reference is the
    name the storage gave to the image of that submission, and the
    storage holds the image's bytes under that name. *)
Definition passed_validation (p : Post) (s : Store) : Prop :=
  ∃ d f used,
    is_valid (UploadForm d f) = true
    ∧ image p = storage_name used (file_name (cleaned_image d f))
    ∧ (image p, file_bytes (cleaned_image d f)) ∈ media s.

Definition posts_validated (s : Store) : Prop :=
  ∀ pk p, posts s !! pk = Some p → passed_validation p s.

End project.

(** ** A sample project, to run the definitions on *)

Module sample.

(** Modelled from the spec: the form's validation is a presence and a
    file-type constraint on the uploaded image. *)
Definition upload_errors (data : gmap string string)
    (files : gmap string UploadedFile) : gmap string (list string) :=
  match files !! "image" with
  | None => {["image" := ["This field is required."]]}
  | Some upload =>
      if String.prefix "image/" (file_content_type upload) then ∅
      else {["image" := ["Upload a valid image."]]}
  end.

Definition no_file : UploadedFile :=
  {| file_name := ""; file_content_type := ""; file_bytes := "" |}.

Definition upload_image (data : gmap string string)
    (files : gmap string UploadedFile) : UploadedFile :=
  default no_file (files !! "image").

Definition pick_name (used : list string) (n : string) : string :=
  if bool_decide ("images/" +:+ n ∈ used) then "images/1_" +:+ n
  else "images/" +:+ n.

Definition project : Project :=
  {| gallery_mount := "gallery/";
     hello_mount := "";
     storage_name := pick_name;
     field_errors := upload_errors;
     cleaned_image := upload_image;
     second_content := "second" |}.

Definition cat_png : UploadedFile :=
  {| file_name := "cat.png"; file_content_type := "image/png"; file_bytes := "PNG" |}.

Definition notes_txt : UploadedFile :=
  {| file_name := "notes.txt"; file_content_type := "text/plain"; file_bytes := "abc" |}.

Definition get : HttpRequest := {| method := "GET"; POST := ∅; FILES := ∅ |}.
Definition put : HttpRequest :=
  {| method := "PUT"; POST := ∅; FILES := {["image" := cat_png]} |}.
Definition head : HttpRequest := {| method := "HEAD"; POST := ∅; FILES := ∅ |}.
Definition post_cat : HttpRequest :=
  {| method := "POST"; POST := ∅; FILES := {["image" := cat_png]} |}.
Definition post_notes : HttpRequest :=
  {| method := "POST"; POST := ∅; FILES := {["image" := notes_txt]} |}.
Definition post_nothing : HttpRequest :=
  {| method := "POST"; POST := {["title" := "cat"]}; FILES := ∅ |}.


End sample.

(** ** Properties *)

Section properties.
Context `{Project}.

Implicit Types (request : HttpRequest) (s : Store).

(** *** The table and the resolver *)

Lemma next_pk_unused {A} (table : gmap nat A) : table !! next_pk table = None.
Proof.
  apply not_elem_of_dom. intros Hin%elem_of_elements.
  apply max_list_elem_of_le in Hin. unfold next_pk in Hin. lia.
Qed.

Lemma reverse_gallery_success :
  reverse ROOT_URLCONF "gallery:success" = Some ("/" +:+ gallery_mount +:+ "success").
Proof. reflexivity. Qed.

Lemma redirect_gallery_success s :
  redirect "gallery:success" s
  = (inr (HttpResponseRedirect ("/" +:+ gallery_mount +:+ "success")), s).
Proof. unfold redirect. by rewrite reverse_gallery_success. Qed.

Lemma serve_image_upload request s :
  serve gallery_urls.urlpatterns "/image_upload" request s
  = match image_upload request s with
    | (inr response, s') => (response, s')
    | (inl _, s') => (HttpResponseServerError, s')
    end.
Proof. reflexivity. Qed.

(** *** image_upload, branch by branch *)

Lemma is_valid_errors form : is_valid form = true → errors form = ∅.
Proof.
  unfold is_valid. intros [_ Herr%bool_decide_eq_true]%andb_true_iff. done.
Qed.

Lemma save_valid d f s :
  is_valid (UploadForm d f) = true →
  save (UploadForm d f) s
  = (inr (next_pk (posts s)),
     {| posts := <[next_pk (posts s) :=
                    {| image := storage_name (media s).*1 (file_name (cleaned_image d f)) |}]>
                   (posts s);
        messages := messages s;
        media := media s ++ [(storage_name (media s).*1 (file_name (cleaned_image d f)),
                              file_bytes (cleaned_image d f))];
        clock := clock s |}).
Proof.
  intros Hv%is_valid_errors. unfold save. rewrite Hv.
  by rewrite bool_decide_eq_true_2.
Qed.

Lemma image_upload_other_method request s :
  method request ≠ "POST" →
  image_upload request s
  = (inr (render request "gallery/upload.html" {["form" := CtxForm UploadForm_unbound]}), s).
Proof.
  intros Hm. unfold image_upload, bind.
  by rewrite bool_decide_eq_false_2.
Qed.

Lemma image_upload_valid_post_aux request s :
  method request = "POST" →
  is_valid (UploadForm (POST request) (FILES request)) = true →
  image_upload request s
  = (inr (HttpResponseRedirect ("/" +:+ gallery_mount +:+ "success")),
     (save (UploadForm (POST request) (FILES request)) s).2)
  ∧ save (UploadForm (POST request) (FILES request)) s
    = (inr (next_pk (posts s)), (save (UploadForm (POST request) (FILES request)) s).2).
Proof.
  intros Hm Hv. rewrite (save_valid _ _ s Hv). split; [|done].
  unfold image_upload, bind.
  rewrite bool_decide_eq_true_2 by done. rewrite Hv.
  rewrite save_valid by done. by rewrite redirect_gallery_success.
Qed.

(** C1.  A POST whose fields and files pass the validation of the
    upload form stores exactly one new [Post] (a row under a primary key
    that was free, and the uploaded file in the storage, under the name
    the row refers to), touches nothing else, and answers with a
    redirect to the URL of [gallery:success], which the gallery's table
    routes to [success]. *)
Theorem image_upload_valid_post request s :
  method request = "POST" →
  is_valid (UploadForm (POST request) (FILES request)) = true →
  let upload := cleaned_image (POST request) (FILES request) in
  let stored := storage_name (media s).*1 (file_name upload) in
  ∃ pk url s',
    image_upload request s = (inr (HttpResponseRedirect url), s')
    ∧ status_code (HttpResponseRedirect url) = 302
    ∧ reverse ROOT_URLCONF "gallery:success" = Some url
    ∧ url = "/" +:+ gallery_mount +:+ "success"
    ∧ callback <$> resolve gallery_urls.urlpatterns "success" = Some ref_success
    ∧ call ref_success = success
    ∧ posts s !! pk = None
    ∧ posts s' = <[pk := {| image := stored |}]> (posts s)
    ∧ size (posts s') = S (size (posts s))
    ∧ media s' = media s ++ [(stored, file_bytes upload)]
    ∧ messages s' = messages s
    ∧ clock s' = clock s.
Proof.
  intros Hm Hv upload stored.
  exists (next_pk (posts s)), ("/" +:+ gallery_mount +:+ "success").
  eexists. split.
  - unfold image_upload, bind.
    rewrite bool_decide_eq_true_2 by done. rewrite Hv.
    rewrite save_valid by done. rewrite redirect_gallery_success.
    reflexivity.
  - cbn [posts media messages clock].
    repeat split; try done.
    + apply next_pk_unused.
    + apply map_size_insert_None, next_pk_unused.
Qed.

(** C2.  A POST that fails the validation of the upload form is
    answered with HTTP 200, the upload template rendered with the bound
    form, and the store is left as it was. *)
Theorem image_upload_invalid_post request s :
  method request = "POST" →
  is_valid (UploadForm (POST request) (FILES request)) = false →
  let form := UploadForm (POST request) (FILES request) in
  let response := HttpResponseRendered "gallery/upload.html" {["form" := CtxForm form]} in
  image_upload request s = (inr response, s)
  ∧ status_code response = 200
  ∧ is_bound form = true
  ∧ data form = POST request
  ∧ files form = FILES request.
Proof.
  intros Hm Hv form response. repeat split.
  unfold image_upload, bind.
  rewrite bool_decide_eq_true_2 by done. by rewrite Hv.
Qed.

(** C4.  A GET to [image_upload] builds an unbound, empty form and
    answers with HTTP 200, the upload template rendered with it. *)
Theorem image_upload_get request s :
  method request = "GET" →
  let response :=
    HttpResponseRendered "gallery/upload.html" {["form" := CtxForm UploadForm_unbound]} in
  (image_upload request s).1 = inr response
  ∧ status_code response = 200
  ∧ is_bound UploadForm_unbound = false
  ∧ data UploadForm_unbound = ∅
  ∧ files UploadForm_unbound = ∅
  ∧ (serve gallery_urls.urlpatterns "/image_upload" request s).1 = response.
Proof.
  intros Hm response.
  assert (method request ≠ "POST") as Hne by (by rewrite Hm).
  repeat split.
  - by rewrite image_upload_other_method.
  - rewrite serve_image_upload. by rewrite image_upload_other_method.
Qed.

(** C10.  Whatever the method, as long as it is not POST (HEAD and PUT
    as much as GET), [image_upload] takes the empty-form path: it builds
    an unbound, empty form and answers with HTTP 200, the upload template
    rendered with that form; no [Post] and no file is stored, and the
    answer is not a redirect. *)
Theorem image_upload_not_post request s :
  method request ≠ "POST" →
  let response :=
    HttpResponseRendered "gallery/upload.html" {["form" := CtxForm UploadForm_unbound]} in
  image_upload request s = (inr response, s)
  ∧ status_code response = 200
  ∧ is_bound UploadForm_unbound = false
  ∧ data UploadForm_unbound = ∅
  ∧ files UploadForm_unbound = ∅
  ∧ (serve gallery_urls.urlpatterns "/image_upload" request s).1 = response
  ∧ posts (image_upload request s).2 = posts s
  ∧ media (image_upload request s).2 = media s
  ∧ (∀ url, (image_upload request s).1 ≠ inr (HttpResponseRedirect url)).
Proof.
  intros Hne response.
  rewrite serve_image_upload, image_upload_other_method by done.
  repeat split. intros url. discriminate.
Qed.

(** C6.  Whatever the request and the store, [success] answers with
    HTTP 200, the success template rendered. *)
Theorem success_renders request s :
  (success request s).1 = inr (HttpResponseRendered "gallery/success.html" ∅)
  ∧ (serve gallery_urls.urlpatterns "/success" request s).1
    = HttpResponseRendered "gallery/success.html" ∅
  ∧ status_code (serve gallery_urls.urlpatterns "/success" request s).1 = 200.
Proof. done. Qed.

(** C7.  [success] only renders: every [Post], every [Message] and
    every stored file is as before. *)
Theorem success_leaves_store request s :
  (success request s).2 = s
  ∧ posts (serve gallery_urls.urlpatterns "/success" request s).2 = posts s
  ∧ messages (serve gallery_urls.urlpatterns "/success" request s).2 = messages s
  ∧ media (serve gallery_urls.urlpatterns "/success" request s).2 = media s.
Proof. done. Qed.

(** *** Views and the store *)

Lemma as_view_store view request s : (as_view view request s).2 = s.
Proof. unfold as_view. by repeat case_bool_decide. Qed.

Lemma as_view_get view request s :
  method request = "GET" →
  as_view view request s
  = (inr (HttpResponseRendered (get_template_name view)
            (get_context_data view (get_queryset view s))), s).
Proof. intros Hm. unfold as_view. by rewrite Hm. Qed.

(** What [image_upload] does to the store and how it answers, in all
    three of its paths; no exception leaves it. *)
Lemma image_upload_cases request s :
  (∃ response, image_upload request s = (inr response, s)
               ∧ status_code response = 200)
  ∨ (method request = "POST"
     ∧ is_valid (UploadForm (POST request) (FILES request)) = true
     ∧ ∃ response pk,
         image_upload request s
         = (inr response, (save (UploadForm (POST request) (FILES request)) s).2)
         ∧ save (UploadForm (POST request) (FILES request)) s
           = (inr pk, (save (UploadForm (POST request) (FILES request)) s).2)
         ∧ status_code response = 302).
Proof.
  destruct (decide (method request = "POST")) as [Hm|Hm].
  - destruct (is_valid (UploadForm (POST request) (FILES request))) eqn:Hv.
    + right. repeat split; try done.
      destruct (image_upload_valid_post_aux request s Hm Hv) as [Hup Hsave].
      eexists _, _. rewrite Hup, Hsave. done.
    + left. exists (render request "gallery/upload.html"
                      {["form" := CtxForm (UploadForm (POST request) (FILES request))]}).
      split; [|done]. unfold image_upload, bind.
      rewrite bool_decide_eq_true_2 by done. by rewrite Hv.
  - left. eexists. by rewrite image_upload_other_method.
Qed.

(** A view either leaves the store as it is, or it is [image_upload]
    saving a submission the form accepted. *)
Lemma call_store view request s :
  (call view request s).2 = s
  ∨ (is_valid (UploadForm (POST request) (FILES request)) = true
     ∧ (call view request s).2
       = (save (UploadForm (POST request) (FILES request)) s).2).
Proof.
  destruct view; cbn [call];
    try (left; apply as_view_store); try (by left).
  destruct (image_upload_cases request s)
    as [(r & -> & _)|(_ & Hv & r & pk & -> & _ & _)]; [by left|by right].
Qed.

Lemma serve_store urlpatterns url request s :
  (serve urlpatterns url request s).2 = s
  ∨ (is_valid (UploadForm (POST request) (FILES request)) = true
     ∧ (serve urlpatterns url request s).2
       = (save (UploadForm (POST request) (FILES request)) s).2).
Proof.
  unfold serve. destruct (resolve_url urlpatterns url) as [p|]; [|by left].
  destruct (call_store (callback p) request s) as [Heq|[Hv Heq]];
    destruct (call (callback p) request s) as [[e|r] s']; cbn in *; auto.
Qed.

Lemma Message_create_store text supplied s :
  posts (Message_create text supplied s).2 = posts s
  ∧ media (Message_create text supplied s).2 = media s
  ∧ clock (Message_create text supplied s).2 = clock s.
Proof.
  unfold Message_create.
  by destruct (models.DateTimeField_pre_save _ _ _ _).
Qed.

(** *** The invariant on posts *)

Lemma passed_validation_mono p s s' :
  media s ⊆ media s' → passed_validation p s → passed_validation p s'.
Proof.
  intros Hsub (d & f & used & Hv & Himg & Hin).
  exists d, f, used. repeat split; auto.
Qed.

Lemma save_posts_validated d f s :
  is_valid (UploadForm d f) = true →
  posts_validated s → posts_validated (save (UploadForm d f) s).2.
Proof.
  intros Hv Hinv pk p. rewrite save_valid by done. cbn [snd posts].
  intros [[<- <-]|[_ Hold]]%lookup_insert_Some.
  - exists d, f, (media s).*1. cbn [image media].
    repeat split; [done|]. apply elem_of_app. right. by apply list_elem_of_singleton.
  - eapply passed_validation_mono; [|by apply (Hinv pk)].
    cbn [media]. intros x Hx. apply elem_of_app. by left.
Qed.

Lemma step_posts_validated s s' :
  step s s' → posts_validated s → posts_validated s'.
Proof.
  intros Hstep Hinv. destruct Hstep as [url request s|url request s|text supplied s|s].
  - destruct (serve_store gallery_urls.urlpatterns url request s) as [->|[Hv ->]];
      [done|by apply save_posts_validated].
  - destruct (serve_store hello_urls.urlpatterns url request s) as [->|[Hv ->]];
      [done|by apply save_posts_validated].
  - destruct (Message_create_store text supplied s) as (Hp & Hm & _).
    intros pk p. rewrite Hp. intros Hl.
    eapply passed_validation_mono; [|by apply (Hinv pk)]. by rewrite Hm.
  - done.
Qed.

Lemma reachable_posts_validated s : reachable s → posts_validated s.
Proof.
  unfold reachable. intros Hreach.
  apply (rtc_ind_r (R := step) posts_validated empty_store); [| |done].
  - intros pk p. cbn. by rewrite lookup_empty.
  - intros s1 s2 _ Hstep IH. by eapply step_posts_validated.
Qed.

(** C3.  In every store the system can reach, each stored [Post] comes
    from a submission that the upload form accepted, with its file in
    the storage; and a step that changes the table of posts is the save
    of a form that has just been found valid. *)
Theorem stored_posts_passed_validation s :
  reachable s →
  (∀ pk p, posts s !! pk = Some p → passed_validation p s)
  ∧ (∀ s', step s s' →
       posts s' = posts s
       ∨ ∃ d f pk, is_valid (UploadForm d f) = true
                   ∧ save (UploadForm d f) s = (inr pk, s')
                   ∧ posts s !! pk = None
                   ∧ posts s' = <[pk := {| image := storage_name (media s).*1
                                                     (file_name (cleaned_image d f)) |}]>
                                 (posts s)).
Proof.
  intros Hreach. split; [by apply reachable_posts_validated|].
  assert (∀ urlpatterns url request,
    posts (serve urlpatterns url request s).2 = posts s
    ∨ ∃ d f pk, is_valid (UploadForm d f) = true
                ∧ save (UploadForm d f) s = (inr pk, (serve urlpatterns url request s).2)
                ∧ posts s !! pk = None
                ∧ posts (serve urlpatterns url request s).2
                  = <[pk := {| image := storage_name (media s).*1
                                          (file_name (cleaned_image d f)) |}]> (posts s))
    as Hserve.
  { intros urlpatterns url request.
    destruct (serve_store urlpatterns url request s) as [->|[Hv ->]]; [by left|].
    right. exists (POST request), (FILES request), (next_pk (posts s)).
    rewrite save_valid by done. repeat split; [done|]. apply next_pk_unused. }
  intros s' Hstep.
  destruct Hstep as [url request s|url request s|text supplied s|s];
    [apply Hserve|apply Hserve|left; apply Message_create_store|by left].
Qed.

(** *** The invariant on messages *)

Lemma Message_create_inserts text supplied s :
  Message_create text supplied s
  = (inr (next_pk (messages s)),
     {| posts := posts s;
        messages := <[next_pk (messages s) :=
                       {| message_text := text; date := clock s |}]> (messages s);
        media := media s;
        clock := clock s |}).
Proof. reflexivity. Qed.

Lemma save_messages form s :
  messages (save form s).2 = messages s ∧ clock (save form s).2 = clock s.
Proof.
  unfold save. case_bool_decide; [|done]. by destruct (is_bound form).
Qed.






(** *** List views *)

Lemma objects_all_exact {A} (table : gmap nat A) :
  NoDup (objects_all table)
  ∧ length (objects_all table) = size table
  ∧ ∀ pk a, (pk, a) ∈ objects_all table ↔ table !! pk = Some a.
Proof.
  unfold objects_all. split; [apply NoDup_map_to_list|]. split.
  - apply length_map_to_list.
  - intros pk a. apply elem_of_map_to_list.
Qed.

(** C5.  A GET to a list view is answered from the store as it is when
    the request is served: the list handed to the template holds every
    stored record once, under its primary key, and nothing else.  This
    is so for [PostListView] over [Post] and for [IndexView] over
    [Message]. *)
Theorem list_views_show_store request s :
  method request = "GET" →
  (∃ context l,
     serve gallery_urls.urlpatterns "/" request s
     = (HttpResponseRendered "gallery/index.html" context, s)
     ∧ context !! "posts" = Some (CtxPosts l)
     ∧ context !! "object_list" = Some (CtxPosts l)
     ∧ NoDup l
     ∧ length l = size (posts s)
     ∧ ∀ pk p, (pk, p) ∈ l ↔ posts s !! pk = Some p)
  ∧ (∃ context l,
       serve hello_urls.urlpatterns "/" request s
       = (HttpResponseRendered "hello/message_list.html" context, s)
       ∧ context !! "message_list" = Some (CtxMessages l)
       ∧ context !! "object_list" = Some (CtxMessages l)
       ∧ NoDup l
       ∧ length l = size (messages s)
       ∧ ∀ pk m, (pk, m) ∈ l ↔ messages s !! pk = Some m).
Proof.
  intros Hm. split.
  - exists (get_context_data PostListView (get_queryset PostListView s)),
           (objects_all (posts s)).
    split.
    { change (serve gallery_urls.urlpatterns "/" request s)
        with (match as_view PostListView request s with
              | (inr response, s') => (response, s')
              | (inl _, s') => (HttpResponseServerError, s')
              end).
      by rewrite as_view_get. }
    split; [done|]. split; [done|]. apply objects_all_exact.
  - exists (get_context_data IndexView (get_queryset IndexView s)),
           (objects_all (messages s)).
    split.
    { change (serve hello_urls.urlpatterns "/" request s)
        with (match as_view IndexView request s with
              | (inr response, s') => (response, s')
              | (inl _, s') => (HttpResponseServerError, s')
              end).
      by rewrite as_view_get. }
    split; [done|]. split; [done|]. apply objects_all_exact.
Qed.

(** *** The URL tables *)

Lemma resolve_url_Some urlpatterns url p :
  resolve_url urlpatterns url = Some p
  ↔ ∃ remaining, url = String "/" remaining ∧ resolve urlpatterns remaining = Some p.
Proof.
  split.
  - destruct url as [|c remaining]; [done|].
    destruct c as [[] [] [] [] [] [] [] []]; try done.
    intros Hres. by exists remaining.
  - by intros (remaining & -> & Hres).
Qed.

Lemma resolve_gallery remaining p :
  resolve gallery_urls.urlpatterns remaining = Some p
  ↔ (remaining, p) ∈ [("", path "" ref_PostListView "index");
                       ("image_upload", path "image_upload" ref_image_upload "image_upload");
                       ("success", path "success" ref_success "success")].
Proof.
  rewrite !elem_of_cons, elem_of_nil.
  cbn [resolve gallery_urls.urlpatterns path route]. split.
  - repeat case_bool_decide; intros [= <-]; subst; auto.
  - intros [[= -> ->]|[[= -> ->]|[[= -> ->]|[]]]]; done.
Qed.

Lemma resolve_hello remaining p :
  resolve hello_urls.urlpatterns remaining = Some p
  ↔ (remaining, p) ∈ [("", path "" ref_IndexView "index");
                       ("second/", path "second/" ref_second "second")].
Proof.
  rewrite !elem_of_cons, elem_of_nil.
  cbn [resolve hello_urls.urlpatterns path route]. split.
  - repeat case_bool_decide; intros [= <-]; subst; auto.
  - intros [[= -> ->]|[[= -> ->]|[]]]; done.
Qed.

(** C8.  The two URL tables are the URL surface of the apps.  Under
    the gallery, [/] goes to the list of posts as [index],
    [/image_upload] to [image_upload] (which answers GET and POST
    alike, never with a 405) and [/success] to [success]; under hello,
    [/] goes to the list of messages as [index] and [/second/] to the
    placeholder as [second].  The routes are written in the tables
    without the leading slash, which the resolver consumes.  No other
    URL resolves, and each name reverses to its route under the
    namespace of its app. *)
Theorem url_tables :
  (∀ url view n,
     (∃ p, resolve_url gallery_urls.urlpatterns url = Some p
           ∧ callback p = view ∧ name p = n)
     ↔ (url, view, n) ∈ [("/", ref_PostListView, "index");
                          ("/image_upload", ref_image_upload, "image_upload");
                          ("/success", ref_success, "success")])
  ∧ (∀ url view n,
       (∃ p, resolve_url hello_urls.urlpatterns url = Some p
             ∧ callback p = view ∧ name p = n)
       ↔ (url, view, n) ∈ [("/", ref_IndexView, "index");
                            ("/second/", ref_second, "second")])
  ∧ route <$> gallery_urls.urlpatterns = [""; "image_upload"; "success"]
  ∧ route <$> hello_urls.urlpatterns = [""; "second/"]
  ∧ (call ref_PostListView = as_view PostListView ∧ model PostListView = PostModel)
  ∧ call ref_image_upload = image_upload
  ∧ call ref_success = success
  ∧ (call ref_IndexView = as_view IndexView ∧ model IndexView = MessageModel)
  ∧ call ref_second = second
  ∧ reverse ROOT_URLCONF "gallery:index" = Some ("/" +:+ gallery_mount +:+ "")
  ∧ reverse ROOT_URLCONF "gallery:image_upload" = Some ("/" +:+ gallery_mount +:+ "image_upload")
  ∧ reverse ROOT_URLCONF "gallery:success" = Some ("/" +:+ gallery_mount +:+ "success")
  ∧ reverse ROOT_URLCONF "hello:index" = Some ("/" +:+ hello_mount +:+ "")
  ∧ reverse ROOT_URLCONF "hello:second" = Some ("/" +:+ hello_mount +:+ "second/")
  ∧ (∀ request s,
       status_code (serve gallery_urls.urlpatterns "/image_upload" request s).1 = 200
       ∨ status_code (serve gallery_urls.urlpatterns "/image_upload" request s).1 = 302).
Proof.
  split; [|split].
  - intros url view n. rewrite !elem_of_cons, elem_of_nil. split.
    + intros (p & (remaining & -> & Hres)%resolve_url_Some & <- & <-).
      apply resolve_gallery in Hres. revert Hres.
      rewrite !elem_of_cons, elem_of_nil.
      intros [[= -> ->]|[[= -> ->]|[[= -> ->]|[]]]]; cbn; auto.
    + intros [[= -> -> ->]|[[= -> -> ->]|[[= -> -> ->]|[]]]];
        eexists; (split; [reflexivity|done]).
  - intros url view n. rewrite !elem_of_cons, elem_of_nil. split.
    + intros (p & (remaining & -> & Hres)%resolve_url_Some & <- & <-).
      apply resolve_hello in Hres. revert Hres.
      rewrite !elem_of_cons, elem_of_nil.
      intros [[= -> ->]|[[= -> ->]|[]]]; cbn; auto.
    + intros [[= -> -> ->]|[[= -> -> ->]|[]]];
        eexists; (split; [reflexivity|done]).
  - repeat split.
    intros request s. rewrite serve_image_upload.
    destruct (image_upload_cases request s)
      as [(r & -> & Hst)|(_ & _ & r & pk & -> & _ & Hst)]; cbn [fst]; auto.
Qed.

End properties.

(** ** The properties on the sample project *)

Lemma image_upload_valid_post_sample :
  method sample.post_cat = "POST"
  ∧ is_valid (H := sample.project)
      (UploadForm (POST sample.post_cat) (FILES sample.post_cat)) = true
  ∧ ∃ pk s',
      image_upload (H := sample.project) sample.post_cat empty_store
      = (inr (HttpResponseRedirect "/gallery/success"), s')
      ∧ posts s' = {[pk := {| image := "images/cat.png" |}]}
      ∧ media s' = [("images/cat.png", "PNG")].
Proof.
  split; [reflexivity|]. split; [vm_compute; reflexivity|].
  destruct (image_upload_valid_post (H := sample.project) sample.post_cat empty_store
              eq_refl ltac:(vm_compute; reflexivity))
    as (pk & url & s' & Hup & _ & _ & -> & _ & _ & _ & Hposts & _ & Hmedia & _).
  exists pk, s'. split; [exact Hup|]. split; [exact Hposts|exact Hmedia].
Defined.

Lemma image_upload_invalid_post_sample :
  method sample.post_notes = "POST"
  ∧ is_valid (H := sample.project)
      (UploadForm (POST sample.post_notes) (FILES sample.post_notes)) = false
  ∧ image_upload (H := sample.project) sample.post_notes empty_store
    = (inr (HttpResponseRendered "gallery/upload.html"
              {["form" := CtxForm (UploadForm ∅ {["image" := sample.notes_txt]})]}),
       empty_store).
Proof.
  split; [reflexivity|]. split; [vm_compute; reflexivity|].
  apply (image_upload_invalid_post (H := sample.project) sample.post_notes empty_store
           eq_refl ltac:(vm_compute; reflexivity)).
Defined.

Lemma image_upload_get_sample :
  method sample.get = "GET"
  ∧ (image_upload (H := sample.project) sample.get empty_store).1
    = inr (HttpResponseRendered "gallery/upload.html"
             {["form" := CtxForm UploadForm_unbound]}).
Proof.
  split; [reflexivity|].
  apply (image_upload_get (H := sample.project) sample.get empty_store eq_refl).
Defined.

Lemma image_upload_not_post_sample :
  method sample.put ≠ "POST"
  ∧ image_upload (H := sample.project) sample.put empty_store
    = (inr (HttpResponseRendered "gallery/upload.html"
              {["form" := CtxForm UploadForm_unbound]}),
       empty_store).
Proof.
  assert (method sample.put ≠ "POST") as Hne by discriminate.
  split; [exact Hne|].
  apply (image_upload_not_post (H := sample.project) sample.put empty_store Hne).
Defined.

Lemma list_views_show_store_sample :
  method sample.get = "GET"
  ∧ ∃ context l,
      serve (H := sample.project) gallery_urls.urlpatterns "/" sample.get
        (serve (H := sample.project) gallery_urls.urlpatterns "/image_upload"
           sample.post_cat empty_store).2
      = (HttpResponseRendered "gallery/index.html" context,
         (serve (H := sample.project) gallery_urls.urlpatterns "/image_upload"
            sample.post_cat empty_store).2)
      ∧ context !! "posts" = Some (CtxPosts l)
      ∧ length l = 1.
Proof.
  split; [reflexivity|].
  destruct (list_views_show_store (H := sample.project) sample.get
              (serve (H := sample.project) gallery_urls.urlpatterns "/image_upload"
                 sample.post_cat empty_store).2 eq_refl)
    as [(context & l & Hserve & Hctx & _ & _ & Hlen & _) _].
  exists context, l. split; [exact Hserve|]. split; [exact Hctx|].
  rewrite Hlen. vm_compute. reflexivity.
Defined.

Lemma stored_posts_passed_validation_sample :
  reachable (H := sample.project)
    (serve (H := sample.project) gallery_urls.urlpatterns "/image_upload"
       sample.post_cat empty_store).2
  ∧ ∀ pk p,
      posts (serve (H := sample.project) gallery_urls.urlpatterns "/image_upload"
               sample.post_cat empty_store).2 !! pk = Some p →
      passed_validation (H := sample.project) p
        (serve (H := sample.project) gallery_urls.urlpatterns "/image_upload"
           sample.post_cat empty_store).2.
Proof.
  assert (reachable (H := sample.project)
            (serve (H := sample.project) gallery_urls.urlpatterns "/image_upload"
               sample.post_cat empty_store).2) as Hreach
    by (apply rtc_once, step_gallery).
  split; [exact Hreach|].
  apply (stored_posts_passed_validation (H := sample.project) _ Hreach).
Defined.



(** ** The definitions at work *)

Example Message_create_overrides_date :
  objects_all (messages (Message_create "hello" (Some 99) empty_store).2)
  = [(1, {| message_text := "hello"; date := 0 |})].
Proof. vm_compute. reflexivity. Qed.

Example two_uploads_two_posts :
  let s1 := (image_upload (H := sample.project) sample.post_cat empty_store).2 in
  let s2 := (image_upload (H := sample.project) sample.post_cat s1).2 in
  objects_all (posts s2)
  = [(2, {| image := "images/1_cat.png" |}); (1, {| image := "images/cat.png" |})]
  ∧ media s2 = [("images/cat.png", "PNG"); ("images/1_cat.png", "PNG")].
Proof. vm_compute. split; reflexivity. Qed.

Example missing_file_is_refused :
  errors (H := sample.project) (UploadForm (POST sample.post_nothing) (FILES sample.post_nothing))
  = {["image" := ["This field is required."]]}
  ∧ (image_upload (H := sample.project) sample.post_nothing empty_store).2 = empty_store.
Proof. vm_compute. split; reflexivity. Qed.

Example post_to_list_view_not_allowed :
  (serve (H := sample.project) gallery_urls.urlpatterns "/" sample.post_cat empty_store).1
  = HttpResponseNotAllowed ["GET"; "HEAD"; "OPTIONS"].
Proof. vm_compute. reflexivity. Qed.

Example second_needs_its_slash :
  resolve_url hello_urls.urlpatterns "/second" = None
  ∧ callback <$> resolve_url hello_urls.urlpatterns "/second/" = Some ref_second.
Proof. vm_compute. split; reflexivity. Qed.


(** ** Further properties of the views and the tables *)

Section further.
Context `{Project}.

Implicit Types (request : HttpRequest) (s : Store).

(** *** What a request writes *)

Lemma serve_snd urlpatterns url request s :
  (serve urlpatterns url request s).2
  = match resolve_url urlpatterns url with
    | None => s
    | Some p => (call (callback p) request s).2
    end.
Proof.
  unfold serve. destruct (resolve_url urlpatterns url) as [p|]; [|done].
  by destruct (call (callback p) request s) as [[e|r] s'].
Qed.

Lemma save_valid_changes d f s :
  is_valid (UploadForm d f) = true → (save (UploadForm d f) s).2 ≠ s.
Proof.
  intros Hv. rewrite save_valid by done. cbn [snd].
  pose proof (next_pk_unused (posts s)) as Hfree.
  set (pk := next_pk (posts s)) in *.
  intros Heq. apply (f_equal posts) in Heq. cbn [posts] in Heq.
  rewrite <- Heq in Hfree. by rewrite lookup_insert_eq in Hfree.
Qed.

Lemma call_writes view request s :
  (call view request s).2 = s
  ∨ (view = ref_image_upload
     ∧ method request = "POST"
     ∧ is_valid (UploadForm (POST request) (FILES request)) = true
     ∧ (call view request s).2
       = (save (UploadForm (POST request) (FILES request)) s).2).
Proof.
  destruct view; cbn [call];
    try (left; apply as_view_store); try (by left).
  destruct (image_upload_cases request s)
    as [(r & -> & _)|(Hm & Hv & r & pk & -> & _ & _)]; [by left|by right].
Qed.

Lemma resolve_url_gallery url p :
  resolve_url gallery_urls.urlpatterns url = Some p →
  (url = "/" ∧ callback p = ref_PostListView)
  ∨ (url = "/image_upload" ∧ callback p = ref_image_upload)
  ∨ (url = "/success" ∧ callback p = ref_success).
Proof.
  intros (remaining & -> & Hres)%resolve_url_Some.
  apply resolve_gallery in Hres. revert Hres.
  rewrite !elem_of_cons, elem_of_nil.
  intros [[= -> ->]|[[= -> ->]|[[= -> ->]|[]]]]; auto.
Qed.

Lemma resolve_url_hello url p :
  resolve_url hello_urls.urlpatterns url = Some p →
  (url = "/" ∧ callback p = ref_IndexView)
  ∨ (url = "/second/" ∧ callback p = ref_second).
Proof.
  intros (remaining & -> & Hres)%resolve_url_Some.
  apply resolve_hello in Hres. revert Hres.
  rewrite !elem_of_cons, elem_of_nil.
  intros [[= -> ->]|[[= -> ->]|[]]]; auto.
Qed.

(** X1.  A request to the gallery changes the store exactly when it is
    a POST to [/image_upload] with a submission the form accepts; no
    other URL and no other method writes, and a request to hello never
    does.  No request to either app touches the messages. *)
Theorem gallery_writes_iff url request s :
  ((serve gallery_urls.urlpatterns url request s).2 ≠ s
   ↔ url = "/image_upload"
     ∧ method request = "POST"
     ∧ is_valid (UploadForm (POST request) (FILES request)) = true)
  ∧ (serve hello_urls.urlpatterns url request s).2 = s
  ∧ messages (serve gallery_urls.urlpatterns url request s).2 = messages s.
Proof.
  split; [|split].
  - split.
    + rewrite serve_snd.
      destruct (resolve_url gallery_urls.urlpatterns url) as [p|] eqn:Hres; [|done].
      intros Hne.
      destruct (call_writes (callback p) request s) as [Heq|(Hview & Hm & Hv & _)]; [done|].
      destruct (resolve_url_gallery url p Hres) as [[_ Hc]|[[-> _]|[_ Hc]]];
        [congruence|done|congruence].
    + intros (-> & Hm & Hv). rewrite serve_image_upload.
      destruct (image_upload_valid_post_aux request s Hm Hv) as [-> _].
      by apply save_valid_changes.
  - rewrite serve_snd.
    destruct (resolve_url hello_urls.urlpatterns url) as [p|] eqn:Hres; [|done].
    destruct (call_writes (callback p) request s) as [Heq|(Hview & _)]; [done|].
    destruct (resolve_url_hello url p Hres) as [[_ Hc]|[_ Hc]]; congruence.
  - destruct (serve_store gallery_urls.urlpatterns url request s) as [->|[_ ->]]; [done|].
    apply save_messages.
Qed.

(** *** Stores along a run *)

Lemma save_valid_grows d f s :
  is_valid (UploadForm d f) = true →
  posts s ⊆ posts (save (UploadForm d f) s).2
  ∧ messages (save (UploadForm d f) s).2 = messages s
  ∧ (∃ more, media (save (UploadForm d f) s).2 = media s ++ more)
  ∧ clock (save (UploadForm d f) s).2 = clock s.
Proof.
  intros Hv. rewrite save_valid by done. cbn [snd posts messages media clock].
  split; [apply insert_subseteq, next_pk_unused|]. split; [done|].
  split; [by eexists|done].
Qed.

Lemma step_grows s s' :
  step s s' →
  posts s ⊆ posts s' ∧ messages s ⊆ messages s'
  ∧ (∃ more, media s' = media s ++ more) ∧ clock s ≤ clock s'.
Proof.
  assert (∀ urlpatterns url request,
    let s' := (serve urlpatterns url request s).2 in
    posts s ⊆ posts s' ∧ messages s ⊆ messages s'
    ∧ (∃ more, media s' = media s ++ more) ∧ clock s ≤ clock s') as Hserve.
  { intros urlpatterns url request.
    destruct (serve_store urlpatterns url request s) as [Heq|[Hv Heq]]; cbn zeta; rewrite Heq.
    - repeat split; [done|done| |done]. exists []. by rewrite app_nil_r.
    - destruct (save_valid_grows (POST request) (FILES request) s Hv)
        as (Hp & -> & Hmedia & ->). done. }
  intros Hstep. destruct Hstep as [url request s|url request s|text supplied s|s].
  - apply Hserve.
  - apply Hserve.
  - rewrite Message_create_inserts. cbn [snd posts messages media clock].
    split; [done|]. split; [apply insert_subseteq, next_pk_unused|].
    split; [|done]. exists []. by rewrite app_nil_r.
  - cbn [posts messages media clock]. repeat split; [done|done| |lia].
    exists []. by rewrite app_nil_r.
Qed.

(** X5.  Nothing is ever removed or overwritten: along any run of the
    system every stored post and message stays as it is under its key,
    the file storage is only appended to, and the clock does not go
    back. *)
Theorem store_only_grows s s' :
  rtc step s s' →
  (∀ pk p, posts s !! pk = Some p → posts s' !! pk = Some p)
  ∧ (∀ pk m, messages s !! pk = Some m → messages s' !! pk = Some m)
  ∧ (∃ more, media s' = media s ++ more)
  ∧ clock s ≤ clock s'.
Proof.
  intros Hrun.
  assert (posts s ⊆ posts s' ∧ messages s ⊆ messages s'
          ∧ (∃ more, media s' = media s ++ more) ∧ clock s ≤ clock s') as Hgrow.
  { induction Hrun as [s|s1 s2 s3 Hstep _ IH].
    - repeat split; [done|done| |done]. exists []. by rewrite app_nil_r.
    - destruct (step_grows s1 s2 Hstep) as (Hp & Hm & [more1 Hf] & Hc).
      destruct IH as (Hp' & Hm' & [more2 Hf'] & Hc').
      split; [by etrans|]. split; [by etrans|]. split; [|lia].
      exists (more1 ++ more2). by rewrite Hf', Hf, app_assoc. }
  destruct Hgrow as (Hp & Hm & Hf & Hc).
  split; [intros pk p Hl; by eapply lookup_weaken|].
  split; [intros pk m Hl; by eapply lookup_weaken|done].
Qed.

(** *** Upload, then list *)

Lemma serve_index_get request s :
  method request = "GET" →
  serve gallery_urls.urlpatterns "/" request s
  = (HttpResponseRendered "gallery/index.html"
       (get_context_data PostListView (CtxPosts (objects_all (posts s)))), s).
Proof.
  intros Hm.
  change (serve gallery_urls.urlpatterns "/" request s)
    with (match as_view PostListView request s with
          | (inr response, s') => (response, s')
          | (inl _, s') => (HttpResponseServerError, s')
          end).
  by rewrite as_view_get.
Qed.

(** X7.  After an upload that the form accepts, the index lists the new
    post, under a key that was free and with the name its file has in
    the storage, next to every post that was there before; the list is
    one longer than the table was. *)
Theorem upload_then_list upload get s :
  method upload = "POST" →
  is_valid (UploadForm (POST upload) (FILES upload)) = true →
  method get = "GET" →
  let s' := (serve gallery_urls.urlpatterns "/image_upload" upload s).2 in
  let stored := storage_name (media s).*1
                  (file_name (cleaned_image (POST upload) (FILES upload))) in
  ∃ context l pk,
    (serve gallery_urls.urlpatterns "/" get s').1
    = HttpResponseRendered "gallery/index.html" context
    ∧ context !! "posts" = Some (CtxPosts l)
    ∧ posts s !! pk = None
    ∧ (pk, {| image := stored |}) ∈ l
    ∧ (stored, file_bytes (cleaned_image (POST upload) (FILES upload))) ∈ media s'
    ∧ (∀ pk' p, posts s !! pk' = Some p → (pk', p) ∈ l)
    ∧ length l = S (size (posts s)).
Proof.
  intros Hup Hv Hget s' stored. subst s'.
  rewrite serve_image_upload.
  destruct (image_upload_valid_post_aux upload s Hup Hv) as [-> _].
  rewrite save_valid by done. cbn [snd].
  rewrite serve_index_get by done. cbn [fst posts media].
  destruct (objects_all_exact
              (<[next_pk (posts s) := {| image := stored |}]> (posts s)))
    as (_ & Hlen & Hin).
  exists (get_context_data PostListView
            (CtxPosts (objects_all
               (<[next_pk (posts s) := {| image := stored |}]> (posts s))))),
         (objects_all (<[next_pk (posts s) := {| image := stored |}]> (posts s))),
         (next_pk (posts s)).
  split; [reflexivity|].
  split; [done|]. split; [apply next_pk_unused|].
  split; [apply Hin, lookup_insert_eq|].
  split; [apply elem_of_app; right; by apply list_elem_of_singleton|].
  split.
  - intros pk' p Hl. apply Hin. rewrite lookup_insert_ne; [done|].
    intros <-. by rewrite next_pk_unused in Hl.
  - rewrite Hlen. apply map_size_insert_None, next_pk_unused.
Qed.

(** X8.  The same accepted submission sent twice is stored twice: two
    posts under two different keys, two files; [image_upload] does not
    recognise a repeated upload. *)
Theorem double_submit request s :
  method request = "POST" →
  is_valid (UploadForm (POST request) (FILES request)) = true →
  let s1 := (image_upload request s).2 in
  let s2 := (image_upload request s1).2 in
  size (posts s2) = S (S (size (posts s)))
  ∧ length (media s2) = S (S (length (media s)))
  ∧ ∃ pk1 pk2,
      pk1 ≠ pk2
      ∧ posts s !! pk1 = None ∧ posts s !! pk2 = None
      ∧ is_Some (posts s2 !! pk1) ∧ is_Some (posts s2 !! pk2).
Proof.
  intros Hm Hv s1 s2. subst s2 s1.
  destruct (image_upload_valid_post_aux request s Hm Hv) as [-> _]. cbn [snd].
  set (s1 := (save (UploadForm (POST request) (FILES request)) s).2).
  destruct (image_upload_valid_post_aux request s1 Hm Hv) as [-> _].
  assert (posts s1 = <[next_pk (posts s) :=
                        {| image := storage_name (media s).*1
                             (file_name (cleaned_image (POST request) (FILES request))) |}]>
                      (posts s)) as Hp1
    by (subst s1; by rewrite save_valid).
  assert (length (media s1) = S (length (media s))) as Hf1.
  { subst s1. rewrite save_valid by done. cbn [snd media].
    rewrite length_app. cbn. lia. }
  pose proof (next_pk_unused (posts s)) as Hfree.
  pose proof (next_pk_unused (posts s1)) as Hfree1.
  rewrite (save_valid _ _ s1) by done. cbn [snd posts media].
  set (pk1 := next_pk (posts s)) in *. set (pk2 := next_pk (posts s1)) in *.
  assert (pk1 ≠ pk2) as Hne.
  { intros Heq. rewrite Hp1, <- Heq in Hfree1.
    by rewrite lookup_insert_eq in Hfree1. }
  split; [|split].
  - rewrite map_size_insert_None by done. rewrite Hp1.
    by rewrite map_size_insert_None.
  - rewrite length_app. cbn. lia.
  - exists pk1, pk2.
    split; [done|]. split; [done|]. split.
    { rewrite Hp1 in Hfree1. by rewrite lookup_insert_ne in Hfree1. }
    split.
    + rewrite lookup_insert_ne by done. rewrite Hp1, lookup_insert_eq. by eexists.
    + rewrite lookup_insert_eq. by eexists.
Qed.

(** *** The tables, entry by entry *)

(** X9.  No entry of either table is shadowed and no name is used
    twice: each pattern is the one its own route resolves to and the one
    its own name finds, and the name, under the namespace of the app,
    reverses to the route of that very pattern under the app's mount. *)
Theorem tables_have_no_shadowed_route :
  (∀ p, p ∈ gallery_urls.urlpatterns →
     resolve gallery_urls.urlpatterns (route p) = Some p
     ∧ find_name gallery_urls.urlpatterns (name p) = Some p
     ∧ reverse ROOT_URLCONF (gallery_urls.app_name +:+ ":" +:+ name p)
       = Some ("/" +:+ gallery_mount +:+ route p))
  ∧ (∀ p, p ∈ hello_urls.urlpatterns →
       resolve hello_urls.urlpatterns (route p) = Some p
       ∧ find_name hello_urls.urlpatterns (name p) = Some p
       ∧ reverse ROOT_URLCONF (hello_urls.app_name +:+ ":" +:+ name p)
         = Some ("/" +:+ hello_mount +:+ route p)).
Proof.
  split; intros p; unfold gallery_urls.urlpatterns, hello_urls.urlpatterns;
    rewrite !elem_of_cons, elem_of_nil.
  - intros [->|[->|[->|[]]]]; repeat split.
  - intros [->|[->|[]]]; repeat split.
Qed.

(** *** A message and its string *)


(** *** The index and the methods *)

(** X11.  The index of the gallery is read only.  GET and HEAD are
    answered alike, with the list of posts; OPTIONS with the methods
    allowed; every other method, POST with an acceptable image included,
    with a 405.  The store is the same afterwards in each case. *)
Theorem list_view_dispatch request s :
  (lower (method request) = "get" ∨ lower (method request) = "head" →
     serve gallery_urls.urlpatterns "/" request s
     = (HttpResponseRendered "gallery/index.html"
          (get_context_data PostListView (CtxPosts (objects_all (posts s)))), s))
  ∧ (lower (method request) = "options" →
       serve gallery_urls.urlpatterns "/" request s
       = (HttpResponseAllow ["GET"; "HEAD"; "OPTIONS"], s))
  ∧ (lower (method request) ∉ ["get"; "head"; "options"] →
       serve gallery_urls.urlpatterns "/" request s
       = (HttpResponseNotAllowed ["GET"; "HEAD"; "OPTIONS"], s))
  ∧ (method request = "POST" →
       serve gallery_urls.urlpatterns "/" request s
       = (HttpResponseNotAllowed ["GET"; "HEAD"; "OPTIONS"], s)).
Proof.
  change (serve gallery_urls.urlpatterns "/" request s)
    with (match as_view PostListView request s with
          | (inr response, s') => (response, s')
          | (inl _, s') => (HttpResponseServerError, s')
          end).
  unfold as_view. split; [|split; [|split]].
  - intros Hm. by rewrite bool_decide_eq_true_2.
  - intros Hm. rewrite Hm. done.
  - rewrite !elem_of_cons, elem_of_nil. intros Hm.
    rewrite bool_decide_eq_false_2 by tauto.
    rewrite bool_decide_eq_false_2 by tauto. done.
  - intros ->. done.
Qed.

End further.

(** ** The further properties on the sample project *)

Lemma store_only_grows_sample :
  rtc (step (H := sample.project)) empty_store
    (serve (H := sample.project) gallery_urls.urlpatterns "/image_upload"
       sample.post_cat empty_store).2
  ∧ ∃ more,
      media (serve (H := sample.project) gallery_urls.urlpatterns "/image_upload"
               sample.post_cat empty_store).2
      = media empty_store ++ more.
Proof.
  assert (rtc (step (H := sample.project)) empty_store
            (serve (H := sample.project) gallery_urls.urlpatterns "/image_upload"
               sample.post_cat empty_store).2) as Hrun
    by (apply rtc_once, step_gallery).
  split; [exact Hrun|].
  apply (store_only_grows (H := sample.project) _ _ Hrun).
Defined.

Lemma upload_then_list_sample :
  method sample.post_cat = "POST"
  ∧ is_valid (H := sample.project)
      (UploadForm (POST sample.post_cat) (FILES sample.post_cat)) = true
  ∧ method sample.get = "GET"
  ∧ ∃ context l pk,
      (serve (H := sample.project) gallery_urls.urlpatterns "/" sample.get
         (serve (H := sample.project) gallery_urls.urlpatterns "/image_upload"
            sample.post_cat empty_store).2).1
      = HttpResponseRendered "gallery/index.html" context
      ∧ context !! "posts" = Some (CtxPosts l)
      ∧ (pk, {| image := "images/cat.png" |}) ∈ l
      ∧ length l = 1.
Proof.
  split; [reflexivity|]. split; [vm_compute; reflexivity|]. split; [reflexivity|].
  destruct (upload_then_list (H := sample.project) sample.post_cat sample.get empty_store
              eq_refl ltac:(vm_compute; reflexivity) eq_refl)
    as (context & l & pk & Hserve & Hctx & _ & Hin & _ & _ & Hlen).
  exists context, l, pk. split; [exact Hserve|]. split; [exact Hctx|].
  split; [exact Hin|exact Hlen].
Defined.

Lemma double_submit_sample :
  method sample.post_cat = "POST"
  ∧ is_valid (H := sample.project)
      (UploadForm (POST sample.post_cat) (FILES sample.post_cat)) = true
  ∧ size (posts (image_upload (H := sample.project) sample.post_cat
                   (image_upload (H := sample.project) sample.post_cat empty_store).2).2)
    = 2.
Proof.
  split; [reflexivity|]. split; [vm_compute; reflexivity|].
  apply (double_submit (H := sample.project) sample.post_cat empty_store
           eq_refl ltac:(vm_compute; reflexivity)).
Defined.
